(** * Harbor / TouristPulse

    Two parts.  [Client] embeds the React component of the repository
    (components/TouristPulse): its response types, the request it issues,
    the state it keeps and the tree it renders.  [Engine] is the forecast
    engine behind the /touristpulse/outlook endpoint; the component only
    calls it, so the engine's definitions are modelled from the
    specification and marked as such. *)

From Stdlib Require Import String Ascii List Bool Arith ZArith QArith Qabs Lia Lqa.
From Stdlib Require Import Floats.PrimFloat Floats.SpecFloat Floats.FloatOps.
From Stdlib Require Import Numbers.DecimalString DecimalNat.
Import ListNotations.

Open Scope string_scope.

(* ================================================================== *)
(** ** The TouristPulse client                                          *)
(* ================================================================== *)

Module Client.

(** JavaScript numbers are IEEE-754 binary64 values. *)
Definition number := float.

(** A property of a parsed JSON object: the key may be missing
    ([undefined] when read), hold [null], or hold a value. *)
Inductive field (A : Type) : Type :=
| Missing
| Null
| Value (a : A).
Arguments Missing {A}.
Arguments Null {A}.
Arguments Value {A} a.

(** [x || d] for a property holding an array or an object: every such value
    is truthy, [undefined] and [null] are not. *)
Definition or_default {A : Type} (x : field A) (d : A) : A :=
  match x with
  | Value a => a
  | Missing | Null => d
  end.

(** interface DemandSignal *)
Record DemandSignal := {
  source : string;
  factor : string;
  impact : string;
  weight : number
}.

(** interface TouristPulseOutlook.  The interface declares [demand_level] as
    the union 'low' | 'moderate' | 'high' | 'very_high'; nothing checks the
    parsed JSON against it and [getLevelColor] takes a plain string, so the
    field is a string here.  [confidence], [drivers] and [summary] are read
    behind [&&] guards and may be absent. *)
Record TouristPulseOutlook := {
  date : string;
  demand_level : string;
  confidence : field number;
  drivers : field (list DemandSignal);
  summary : field string
}.

(** interface TouristPulseResponse *)
Record TouristPulseResponse := {
  location : string;
  outlook : field (list TouristPulseOutlook);
  generated_at : string
}.

(** *** The runtime the component runs on *)

(** Library functions of the JavaScript runtime that the component calls.
    Their results depend on the host (locale, time zone, engine), so they
    are taken as an interface. *)
Class Runtime := {
  (** [new Date(s).toLocaleString()] *)
  Date_toLocaleString : string -> string;
  (** [new Date(s).toLocaleDateString('en-US',
        { weekday: 'short', month: 'short', day: 'numeric' })] *)
  Date_toLocaleDateString : string -> string;
  (** [Math.round] *)
  Math_round : number -> number;
  (** [x.toFixed(digits)] *)
  toFixed : number -> nat -> string;
  (** message of the TypeError raised by reading a property of [null] *)
  null_property_message : string
}.

(** A thrown value: an [Error] with its message, or anything else. *)
Inductive Thrown :=
| ErrorObject (message : string)
| OtherValue.

(** What [await response.json()] settles to: a rejection, or the parsed
    value.  The parsed value is [null] or an object read as a
    [TouristPulseResponse]; a value of another kind has no [outlook]
    property and reads like an object without that key. *)
Inductive Parsed :=
| ParsedNull
| ParsedObject (data : TouristPulseResponse).

Inductive JsonOutcome :=
| JsonRejects (e : Thrown)
| JsonResolves (p : Parsed).

Record HttpResponse := {
  ok : bool;
  status : nat;
  json : JsonOutcome
}.

(** What [await fetch(url)] settles to. *)
Inductive FetchOutcome :=
| FetchRejects (e : Thrown)
| FetchResolves (r : HttpResponse).

(** *** encodeURIComponent *)

(** Strings are sequences of bytes (the UTF-8 form of the JavaScript
    string).  Unreserved characters are kept: letters, digits and
    - _ . ! ~ * ' ( ) ; every other byte becomes %XX in upper-case hex. *)
Definition in_range (lo hi c : nat) : bool := (lo <=? c)%nat && (c <=? hi)%nat.

Definition unreserved (c : ascii) : bool :=
  let n := nat_of_ascii c in
  in_range 65 90 n || in_range 97 122 n || in_range 48 57 n
  || existsb (Nat.eqb n) [45; 95; 46; 33; 126; 42; 39; 40; 41]%nat.

Definition hex_digit (n : nat) : ascii :=
  if (n <? 10)%nat then ascii_of_nat (48 + n) else ascii_of_nat (55 + n).

Definition percent_encode (c : ascii) : string :=
  let n := nat_of_ascii c in
  String "%" (String (hex_digit (n / 16)) (String (hex_digit (n mod 16)) "")).

Fixpoint encodeURIComponent (s : string) : string :=
  match s with
  | EmptyString => ""
  | String c rest =>
      (if unreserved c then String c "" else percent_encode c)
        ++ encodeURIComponent rest
  end.

(** Template-literal rendering of a non-negative integer. *)
Definition string_of_nat (n : nat) : string :=
  NilEmpty.string_of_uint (Nat.to_uint n).

(** *** Component state *)

(** The four [useState] cells. *)
Record State := {
  st_outlook : list TouristPulseOutlook;
  st_loading : bool;
  st_error : option string;
  st_location : string
}.

Definition initial_state : State :=
  {| st_outlook := []; st_loading := true; st_error := None;
     st_location := "Santa Cruz" |}.

(** What a run of [loadTouristOutlook] acts on: the state cells of the
    component, and the URLs handed to [fetch] so far (latest first). *)
Record World := {
  cells : State;
  fetched : list string
}.

(** Statements of [loadTouristOutlook] run over the world and either
    complete or throw. *)
Inductive Completion (A : Type) : Type :=
| Normal (a : A)
| Throws (e : Thrown).
Arguments Normal {A} a.
Arguments Throws {A} e.

Definition M (A : Type) : Type := World -> World * Completion A.

Definition ret {A : Type} (a : A) : M A := fun w => (w, Normal a).

Definition throw {A : Type} (e : Thrown) : M A := fun w => (w, Throws e).

Definition bind {A B : Type} (m : M A) (k : A -> M B) : M B :=
  fun w =>
    match m w with
    | (w', Normal a) => k a w'
    | (w', Throws e) => (w', Throws e)
    end.

Notation "x <- m ;; k" := (bind m (fun x => k))
  (at level 61, m at next level, right associativity).
Notation "m ;;; k" := (bind m (fun _ => k))
  (at level 61, right associativity).

(** try { body } catch (err) { handler err } finally { fin } *)
Definition try_catch_finally (body : M unit) (handler : Thrown -> M unit)
    (fin : M unit) : M unit :=
  fun w =>
    let (w1, c1) := body w in
    let (w2, c2) :=
      match c1 with
      | Normal _ => (w1, Normal tt)
      | Throws e => handler e w1
      end in
    match fin w2 with
    | (w3, Normal _) => (w3, c2)
    | (w3, Throws e) => (w3, Throws e)
    end.

Definition modify (f : State -> State) : M unit :=
  fun w => ({| cells := f (cells w); fetched := fetched w |}, Normal tt).

Definition setOutlook (o : list TouristPulseOutlook) : M unit :=
  modify (fun st => {| st_outlook := o; st_loading := st_loading st;
                       st_error := st_error st; st_location := st_location st |}).

Definition setLoading (b : bool) : M unit :=
  modify (fun st => {| st_outlook := st_outlook st; st_loading := b;
                       st_error := st_error st; st_location := st_location st |}).

Definition setError (e : option string) : M unit :=
  modify (fun st => {| st_outlook := st_outlook st; st_loading := st_loading st;
                       st_error := e; st_location := st_location st |}).

Definition getLocation : M string :=
  fun w => (w, Normal (st_location (cells w))).

(** [await fetch(url)]: the request is issued, then the promise settles. *)
Definition fetch (net : string -> FetchOutcome) (url : string) : M HttpResponse :=
  fun w =>
    let w' := {| cells := cells w; fetched := url :: fetched w |} in
    match net url with
    | FetchRejects e => (w', Throws e)
    | FetchResolves r => (w', Normal r)
    end.

(** [await response.json()] *)
Definition await_json (o : JsonOutcome) : M Parsed :=
  match o with
  | JsonRejects e => throw e
  | JsonResolves p => ret p
  end.

(** [data.outlook]: reading a property of [null] throws a TypeError. *)
Definition read_outlook `{Runtime} (p : Parsed)
    : M (field (list TouristPulseOutlook)) :=
  match p with
  | ParsedNull => throw (ErrorObject null_property_message)
  | ParsedObject data => ret (outlook data)
  end.

(** [process.env.NEXT_PUBLIC_BACKEND_URL || 'http://localhost:8000']:
    an unset variable and the empty string are both falsy. *)
Definition backendUrl (env : option string) : string :=
  match env with
  | Some s => if (s =? "")%string then "http://localhost:8000" else s
  | None => "http://localhost:8000"
  end.

(** The part of the request URL after the backend URL. *)
Definition outlook_path (loc : string) : string :=
  "/touristpulse/outlook?location=" ++ encodeURIComponent loc ++ "&days=30".

Definition request_url (env : option string) (loc : string) : string :=
  backendUrl env ++ outlook_path loc.

(** [loadTouristOutlook].  [env] is the value of NEXT_PUBLIC_BACKEND_URL and
    [net] answers the fetch.  The [console.error] of the catch block has no
    effect on the state and is left out. *)
Definition loadTouristOutlook `{Runtime} (env : option string)
    (net : string -> FetchOutcome) : M unit :=
  try_catch_finally
    (setLoading true ;;;
     setError None ;;;
     loc <- getLocation ;;
     response <- fetch net (request_url env loc) ;;
     (if negb (ok response)
      then throw (ErrorObject ("Backend API error: " ++ string_of_nat (status response)))
      else ret tt) ;;;
     data <- await_json (json response) ;;
     o <- read_outlook data ;;
     setOutlook (or_default o []))
    (fun err =>
       setError (Some match err with
                      | ErrorObject message => message
                      | OtherValue => "Failed to load tourist outlook"
                      end))
    (setLoading false).

(** One run of the effect, from the initial state. *)
Definition mount `{Runtime} (env : option string)
    (net : string -> FetchOutcome) : World * Completion unit :=
  loadTouristOutlook env net {| cells := initial_state; fetched := [] |}.

(** The state once the effect has settled. *)
Definition mounted `{Runtime} (env : option string)
    (net : string -> FetchOutcome) : State :=
  cells (fst (mount env net)).

(** *** Rendering *)

Record LevelColor := {
  bg : string;
  text : string;
  border : string;
  label : string
}.

Definition getLevelColor (level : string) : LevelColor :=
  if (level =? "very_high")%string then
    {| bg := "#d8b4fe"; text := "#6b21a8"; border := "#a855f7"; label := "VERY HIGH" |}
  else if (level =? "high")%string then
    {| bg := "#bbf7d0"; text := "#166534"; border := "#22c55e"; label := "HIGH" |}
  else if (level =? "moderate")%string then
    {| bg := "#bfdbfe"; text := "#1e40af"; border := "#3b82f6"; label := "NORMAL" |}
  else if (level =? "low")%string then
    {| bg := "#fef3c7"; text := "#92400e"; border := "#f59e0b"; label := "LOW" |}
  else
    {| bg := "#e5e7eb"; text := "#374151"; border := "#9ca3af"; label := "UNKNOWN" |}.

Definition Style := list (string * string).

(** The rendered tree.  [Nothing] is a child React skips ([false], [null],
    [undefined]); a number child is shown as text by React. *)
#[warnings="-register-all"]
Inductive Node :=
| Text (s : string)
| Num (x : number)
| Nothing
| Elem (tag : string) (style : Style) (children : list Node).

(** Truthiness of a number: 0, -0 and NaN are falsy. *)
Definition truthy_number (x : number) : bool :=
  negb (PrimFloat.eqb x 0%float) && PrimFloat.eqb x x.

Definition truthy_string (s : string) : bool := negb (s =? "")%string.

(** {day.confidence && (<span>...</span>)} *)
Definition confidence_node `{Runtime} (c : field number) : Node :=
  match c with
  | Missing | Null => Nothing
  | Value x =>
      if truthy_number x then
        Elem "span" [("fontSize", "0.85rem"); ("opacity", "0.8")]
          [Text " "; Text "("; Num (Math_round (PrimFloat.mul x 100%float));
           Text "% confidence)"]
      else Num x
  end.

(** {day.summary && (<div>...</div>)} *)
Definition summary_node (s : field string) : Node :=
  match s with
  | Missing | Null => Nothing
  | Value x =>
      if truthy_string x then
        Elem "div" [("fontSize", "0.85rem"); ("marginTop", "0.5rem");
                    ("fontStyle", "italic"); ("opacity", "0.9")]
          [Text x]
      else Text x
  end.

Definition driver_node `{Runtime} (driver : DemandSignal) : Node :=
  Elem "li" []
    [Text (source driver); Text ": "; Text (factor driver); Text " (";
     Text (impact driver); Text ", weight: "; Text (toFixed (weight driver) 2);
     Text ")"].

(** {day.drivers && day.drivers.length > 0 && (<div>...</div>)} *)
Definition drivers_node `{Runtime} (colors : LevelColor)
    (d : field (list DemandSignal)) : Node :=
  match d with
  | Missing | Null => Nothing
  | Value ds =>
      if (0 <? List.length ds)%nat then
        Elem "div" [("fontSize", "0.8rem"); ("marginTop", "0.75rem");
                    ("paddingTop", "0.75rem");
                    ("borderTop", "1px solid " ++ border colors);
                    ("opacity", "0.8")]
          [Elem "strong" [] [Text "Drivers:"];
           Elem "ul" [("marginTop", "0.25rem"); ("paddingLeft", "1.25rem")]
             (map driver_node ds)]
      else Nothing
  end.

(** The card of one day (the body of [outlook.map]); the [key] props are
    not part of the rendered tree. *)
Definition day_node `{Runtime} (day : TouristPulseOutlook) : Node :=
  let colors := getLevelColor (demand_level day) in
  Elem "div" [("padding", "1rem");
              ("border", "2px solid " ++ border colors);
              ("borderRadius", "8px");
              ("backgroundColor", bg colors);
              ("color", text colors)]
    [Elem "div" [("display", "flex"); ("justifyContent", "space-between");
                 ("marginBottom", "0.5rem")]
       [Elem "div" []
          [Elem "strong" [] [Text (Date_toLocaleDateString (date day))];
           Elem "div" [("fontSize", "0.9rem"); ("marginTop", "0.25rem")]
             [Text "Level: "; Elem "strong" [] [Text (label colors)];
              confidence_node (confidence day)]]];
     summary_node (summary day);
     drivers_node colors (drivers day)].

Definition loading_view : Node :=
  Elem "div" [("padding", "2rem"); ("textAlign", "center")]
    [Elem "div" [] [Text "Loading tourism predictions from backend..."]].

Definition error_view (error : string) : Node :=
  Elem "div" [("padding", "2rem"); ("color", "red")]
    [Elem "div" [] [Text "Error: "; Text error];
     Elem "div" [("marginTop", "1rem"); ("fontSize", "0.9rem")]
       [Text "Make sure the Python backend is running on port 8000:";
        Elem "br" [] [];
        Elem "code" [("background", "#f3f4f6"); ("padding", "0.25rem 0.5rem");
                     ("borderRadius", "4px")]
          [Text "cd backend && python -m uvicorn app.main:app --reload"]]].

(** The text after "Generated at: ". *)
Definition generated_at_text `{Runtime} (o : list TouristPulseOutlook) : string :=
  match o with
  | first :: _ => Date_toLocaleString (date first)
  | [] => "N/A"
  end.

Definition no_data_notice : Node :=
  Elem "div" [("textAlign", "center"); ("padding", "2rem"); ("color", "#666")]
    [Text "No outlook data available"].

Definition forecast_view `{Runtime} (loc : string)
    (o : list TouristPulseOutlook) : Node :=
  Elem "div" []
    [Elem "h2" [("marginBottom", "1rem")]
       [Text "30-Day Tourism Forecast for "; Text loc];
     Elem "div" [("marginBottom", "1rem"); ("fontSize", "0.9rem"); ("color", "#666")]
       [Text "Generated at: "; Text (generated_at_text o)];
     Elem "div" [("display", "grid"); ("gap", "1rem")] (map day_node o);
     if (List.length o =? 0)%nat then no_data_notice else Nothing].

(** What the component returns for a state.  An error message that is the
    empty string is falsy and falls through to the forecast. *)
Definition TouristPulse `{Runtime} (st : State) : Node :=
  if st_loading st then loading_view
  else
    match st_error st with
    | Some e =>
        if truthy_string e then error_view e
        else forecast_view (st_location st) (st_outlook st)
    | None => forecast_view (st_location st) (st_outlook st)
    end.

(** *** Reading the request back *)

(** How the receiving side reads a query string: the text after the first
    '?', cut at every '&', each piece cut at its first '='. *)
Fixpoint break_at (sep : ascii) (s : string) : string * option string :=
  match s with
  | EmptyString => ("", None)
  | String c rest =>
      if Ascii.eqb c sep then ("", Some rest)
      else let (a, b) := break_at sep rest in (String c a, b)
  end.

Fixpoint split_on (sep : ascii) (s : string) (cur : string) : list string :=
  match s with
  | EmptyString => [cur]
  | String c rest =>
      if Ascii.eqb c sep then cur :: split_on sep rest ""
      else split_on sep rest (cur ++ String c "")
  end.

Definition key_value (piece : string) : string * string :=
  let (k, v) := break_at "=" piece in (k, match v with Some x => x | None => "" end).

Definition query_of (path : string) : list (string * string) :=
  match snd (break_at "?" path) with
  | Some q => map key_value (split_on "&" q "")
  | None => []
  end.

Fixpoint lookup (k : string) (l : list (string * string)) : option string :=
  match l with
  | [] => None
  | (k', v) :: rest => if (k' =? k)%string then Some v else lookup k rest
  end.

(** The [days] parameter of a request path, read as a decimal integer. *)
Definition days_of (path : string) : option nat :=
  match lookup "days" (query_of path) with
  | Some v => option_map Nat.of_uint (NilEmpty.uint_of_string v)
  | None => None
  end.

(** Does a character occur in a string? *)
Fixpoint occurs (sep : ascii) (s : string) : bool :=
  match s with
  | EmptyString => false
  | String c rest => Ascii.eqb c sep || occurs sep rest
  end.

(** *** Replies *)

(** The URL the component fetches on mount. *)
Definition the_url (env : option string) : string :=
  request_url env (st_location initial_state).

(** A reply with status [code] whose body parses to the object [data]. *)
Definition replied (good : bool) (code : nat) (data : TouristPulseResponse)
    : FetchOutcome :=
  FetchResolves {| ok := good; status := code;
                   json := JsonResolves (ParsedObject data) |}.

(** The style of an unrecognised level. *)
Definition gray : LevelColor :=
  {| bg := "#e5e7eb"; text := "#374151"; border := "#9ca3af"; label := "UNKNOWN" |}.

(** *** Sample data *)

(** A runtime to run examples on: dates are shown as they are written,
    rounding and [toFixed] are stubs. *)
Definition sample_runtime : Runtime :=
  {| Date_toLocaleString := fun s => s;
     Date_toLocaleDateString := fun s => s;
     Math_round := fun x => x;
     toFixed := fun _ _ => "0.50";
     null_property_message := "Cannot read properties of null (reading 'outlook')" |}.

Definition sample_day : TouristPulseOutlook :=
  {| date := "2026-01-17";
     demand_level := "high";
     confidence := Value 0.75%float;
     drivers := Value [{| source := "events"; factor := "Boardwalk concert";
                          impact := "positive"; weight := 0.5%float |}];
     summary := Value "Busy weekend expected" |}.

Definition sample_response (stamp : string) : TouristPulseResponse :=
  {| location := "Santa Cruz"; outlook := Value [sample_day];
     generated_at := stamp |}.

Definition sample_empty_response : TouristPulseResponse :=
  {| location := "Santa Cruz"; outlook := Null;
     generated_at := "2026-01-16T08:00:00" |}.

(** *** The page *)

(** app/page: [Home] wraps the component; [st] is the state the component
    is in. *)
Definition Home `{Runtime} (st : State) : Node :=
  Elem "main" [("padding", "2rem"); ("maxWidth", "1200px"); ("margin", "0 auto")]
    [Elem "h1" [("marginBottom", "2rem")] [Text "Harbor - TouristPulse"];
     TouristPulse st].

(** *** Looking into a rendered tree *)

(** Every style entry of a tree, outermost first. *)
Fixpoint styles_of (n : Node) : list (string * string) :=
  match n with
  | Elem _ style children => style ++ flat_map styles_of children
  | Text _ | Num _ | Nothing => []
  end.

(** The five styles [getLevelColor] can return. *)
Definition palette : list LevelColor :=
  [getLevelColor "very_high"; getLevelColor "high"; getLevelColor "moderate";
   getLevelColor "low"; gray].

(** The style values written in the component and the page: the literal
    ones, and those built from a colour of the palette. *)
Definition fixed_style_values : list string :=
  ["2rem"; "1200px"; "0 auto"; "center"; "red"; "1rem"; "0.9rem"; "#f3f4f6";
   "0.25rem 0.5rem"; "4px"; "#666"; "grid"; "8px"; "flex"; "space-between";
   "0.5rem"; "0.25rem"; "0.85rem"; "0.8"; "italic"; "0.9"; "0.8rem";
   "0.75rem"; "1.25rem"]
  ++ flat_map (fun c => [bg c; text c; "2px solid " ++ border c;
                         "1px solid " ++ border c]) palette.

Definition is_fixed_style (v : string) : bool :=
  existsb (String.eqb v) fixed_style_values.

(** Do all characters of a string satisfy a test? *)
Fixpoint all_chars (p : ascii -> bool) (s : string) : bool :=
  match s with
  | EmptyString => true
  | String c rest => p c && all_chars p rest
  end.

(** What a byte is encoded to. *)
Definition encode_char (c : ascii) : string :=
  if unreserved c then String c "" else percent_encode c.

(** *** Decoding on the receiving side *)

Definition hex_value (c : ascii) : option nat :=
  let n := nat_of_ascii c in
  if in_range 48 57 n then Some (n - 48)%nat
  else if in_range 65 70 n then Some (n - 55)%nat
  else if in_range 97 102 n then Some (n - 87)%nat
  else None.

(** Percent-decoding of a byte string: %XY stands for the byte XY, a '%'
    not followed by two hex digits is an error. *)
Fixpoint decodeURIComponent (s : string) : option string :=
  match s with
  | EmptyString => Some ""
  | String c rest =>
      if Ascii.eqb c "%" then
        match rest with
        | String h (String l rest') =>
            match hex_value h, hex_value l, decodeURIComponent rest' with
            | Some a, Some b, Some r =>
                Some (String (ascii_of_nat (16 * a + b)) r)
            | _, _, _ => None
            end
        | _ => None
        end
      else option_map (String c) (decodeURIComponent rest)
  end.

(** The location a request path carries, as the receiving side reads it. *)
Definition location_of (path : string) : option string :=
  match lookup "location" (query_of path) with
  | Some v => decodeURIComponent v
  | None => None
  end.

(** The message the catch block records for a thrown value. *)
Definition caught_message (err : Thrown) : string :=
  match err with
  | ErrorObject message => message
  | OtherValue => "Failed to load tourist outlook"
  end.

(** A character an encoded string may hold. *)
Definition url_safe (c : ascii) : bool := unreserved c || Ascii.eqb c "%".

(** Are all style values of a list among the fixed ones? *)
Definition fixed_styles (l : list (string * string)) : bool :=
  forallb (fun kv => is_fixed_style (snd kv)) l.

End Client.

(* ================================================================== *)
(** ** The forecast engine                                              *)
(* ================================================================== *)

Module Engine.

Open Scope Q_scope.

(** *** Data model *)

(** Modelled from the spec: the signal sources of section 2 (bank/POS
    transactions, weather, event calendars, traffic counts, rent listings);
    the engine declares this enum on the backend side. *)
Inductive Source := transactions | weather | events | traffic | rent_listings.

(** Modelled from the spec: the module enum of a Score (section 3). *)
Inductive ModuleId := cashflow | tourism | rent | demand.

(** Modelled from the spec: Signal (section 3), {source, timestamp, metric,
    value, unit}; a timestamp is a day number and a value an exact
    rational. *)
Record Signal := {
  sig_source : Source;
  sig_timestamp : Z;
  sig_metric : string;
  sig_value : Q;
  sig_unit : string
}.

(** Modelled from the spec: the identity of a Signal, the triple
    (source, metric, timestamp). *)
Definition Key : Type := Source * string * Z.

(** Modelled from the spec: the triple of a stored Signal. *)
Definition key_of (s : Signal) : Key :=
  (sig_source s, sig_metric s, sig_timestamp s).

(** Modelled from the spec: two triples are the same when source, metric
    and timestamp are. *)
Definition source_eqb (a b : Source) : bool :=
  match a, b with
  | transactions, transactions | weather, weather | events, events
  | traffic, traffic | rent_listings, rent_listings => true
  | _, _ => false
  end.

Definition key_eqb (a b : Key) : bool :=
  let '(s1, m1, t1) := a in
  let '(s2, m2, t2) := b in
  source_eqb s1 s2 && (m1 =? m2)%string && (t1 =? t2)%Z.

(** Modelled from the spec: the error taxonomy of section 7. *)
Inductive ErrorKind :=
| InvalidSignal
| InvalidConfiguration
| ModelInputMismatch
| UpstreamTimeout
| InsufficientHistory.

(** *** Signal ingestion (section 4.1) *)

(** Modelled from the spec: a record as an adapter delivers it, tagged with
    source and timestamp; the other fields of a Signal may be missing. *)
Record RawRecord := {
  raw_source : Source;
  raw_timestamp : Z;
  raw_metric : option string;
  raw_value : option Q;
  raw_unit : option string
}.

(** Modelled from the spec: the declared physical range of each source and
    the acceptable lag window into the future. *)
Record IngestConfig := {
  physical_range : Source -> Q * Q;
  max_future_lag : Z
}.

(** Modelled from the spec: the ingestion check.  A record is rejected with
    InvalidSignal when a required field is missing, when its value is
    outside the source's declared range, or when its timestamp is further
    in the future than the lag window allows. *)
Definition validate (cfg : IngestConfig) (now : Z) (r : RawRecord)
    : Signal + ErrorKind :=
  match raw_metric r, raw_value r, raw_unit r with
  | Some m, Some v, Some u =>
      let (lo, hi) := physical_range cfg (raw_source r) in
      if Qle_bool lo v && Qle_bool v hi
         && (raw_timestamp r <=? now + max_future_lag cfg)%Z
      then inl {| sig_source := raw_source r; sig_timestamp := raw_timestamp r;
                  sig_metric := m; sig_value := v; sig_unit := u |}
      else inr InvalidSignal
  | _, _, _ => inr InvalidSignal
  end.

(** Modelled from the spec: the Signal Store, the stored signals in order
    of first arrival. *)
Definition Store := list Signal.

(** Modelled from the spec: a valid record is appended; a record whose
    triple is already stored overwrites the stored one. *)
Fixpoint put (s : Signal) (store : Store) : Store :=
  match store with
  | [] => [s]
  | x :: rest =>
      if key_eqb (key_of x) (key_of s) then s :: rest else x :: put s rest
  end.

(** No triple is stored twice. *)
Definition unique_keys (store : Store) : Prop := NoDup (map key_of store).

(** Modelled from the spec: every value the store holds for a triple. *)
Definition retrievable (k : Key) (store : Store) : list Q :=
  map sig_value (filter (fun x => key_eqb (key_of x) k) store).

(** Modelled from the spec: get by (source, metric, timestamp). *)
Definition get (k : Key) (store : Store) : option Q :=
  option_map sig_value (find (fun x => key_eqb (key_of x) k) store).

(** Modelled from the spec: a batch is ingested record by record; a
    rejected record is reported and the batch continues. *)
Fixpoint ingest (cfg : IngestConfig) (now : Z) (batch : list RawRecord)
    (store : Store) : Store * list (RawRecord * ErrorKind) :=
  match batch with
  | [] => (store, [])
  | r :: rest =>
      match validate cfg now r with
      | inl s => ingest cfg now rest (put s store)
      | inr e =>
          let (store', rejected) := ingest cfg now rest store in
          (store', (r, e) :: rejected)
      end
  end.

(** *** Tier classification (section 4.4) *)

(** Modelled from the spec: one boundary between two adjacent tiers, with
    the upper threshold that raises the tier and the lower threshold that
    reverts it. *)
Record Band := {
  lower : Q;
  upper : Q
}.

Definition Qlt_bool (x y : Q) : bool := negb (Qle_bool y x).


(** Modelled from the spec: the tier (counted from 0, the lowest) a score
    reaches when each boundary stands at the given threshold. *)
Definition tier_by (threshold : Band -> Q) (bands : list Band) (score : Q)
    : nat :=
  List.length (filter (fun b => Qle_bool (threshold b) score) bands).

(** Modelled from the spec: classification with hysteresis.  Without prior
    state the bands are used directly, each boundary standing at its upper
    threshold.  With a last tier, the tier rises
    when the score reaches the upper threshold above it, falls when the
    score is below the lower threshold beneath it, and stays otherwise. *)
Definition classify_step (bands : list Band) (prev : option nat) (score : Q)
    : nat :=
  let up := tier_by upper bands score in
  match prev with
  | None => up
  | Some t =>
      if (t <? up)%nat then up
      else
        let dn := tier_by lower bands score in
        if (dn <? t)%nat then dn else t
  end.



(** Modelled from the spec: classifier state, the last tier keyed by
    (module, location). *)
Definition ClassifierState : Type := list ((ModuleId * string) * nat).

(** Modelled from the spec: lookup and update of the last tier of an
    entity. *)
Definition module_eqb (a b : ModuleId) : bool :=
  match a, b with
  | cashflow, cashflow | tourism, tourism | rent, rent | demand, demand => true
  | _, _ => false
  end.

Definition entity_eqb (a b : ModuleId * string) : bool :=
  module_eqb (fst a) (fst b) && (snd a =? snd b)%string.

Fixpoint last_tier (k : ModuleId * string) (st : ClassifierState) : option nat :=
  match st with
  | [] => None
  | (k', t) :: rest => if entity_eqb k' k then Some t else last_tier k rest
  end.

Fixpoint set_tier (k : ModuleId * string) (t : nat) (st : ClassifierState)
    : ClassifierState :=
  match st with
  | [] => [(k, t)]
  | (k', t') :: rest =>
      if entity_eqb k' k then (k', t) :: rest else (k', t') :: set_tier k t rest
  end.

(** Modelled from the spec: classification of a score for an entity, a
    read-modify-write of that entity's last tier. *)
Definition classify (bands : list Band) (k : ModuleId * string) (score : Q)
    (st : ClassifierState) : nat * ClassifierState :=
  let t := classify_step bands (last_tier k st) score in
  (t, set_tier k t st).










(** *** Explanation assembly (section 4.5) *)

(** Modelled from the spec: the impact enum of a Driver. *)
Inductive Impact := positive | negative | neutral.

(** Modelled from the spec: Driver (section 3). *)
Record Driver := {
  d_source : Source;
  d_factor : string;
  d_impact : Impact;
  d_weight : Q
}.

(** Modelled from the spec: the weighted contribution of one feature to a
    Score, feature value times source weight. *)
Record Contribution := {
  c_source : Source;
  c_factor : string;
  c_amount : Q
}.

(** Modelled from the spec: ranking by absolute contribution, largest
    first; ties keep their order. *)
Fixpoint insert_ranked (c : Contribution) (l : list Contribution)
    : list Contribution :=
  match l with
  | [] => [c]
  | d :: rest =>
      if Qle_bool (Qabs (c_amount d)) (Qabs (c_amount c)) then c :: d :: rest
      else d :: insert_ranked c rest
  end.

Definition rank (cs : list Contribution) : list Contribution :=
  fold_right insert_ranked [] cs.

(** Modelled from the spec: what all contributions to a Score add up to,
    in absolute value. *)
Definition total_contribution (cs : list Contribution) : Q :=
  fold_right (fun c acc => Qabs (c_amount c) + acc) 0 cs.

(** Modelled from the spec: the impact sign of a contribution. *)
Definition impact_of (amount : Q) : Impact :=
  if Qlt_bool 0 amount then positive
  else if Qlt_bool amount 0 then negative
  else neutral.

(** Modelled from the spec: the weight of a driver, its absolute
    contribution as a share of all contributions to the Score, kept as the
    exact ratio; [weights64] below gives the binary64 numbers. *)
Definition to_driver (total : Q) (c : Contribution) : Driver :=
  {| d_source := c_source c; d_factor := c_factor c;
     d_impact := impact_of (c_amount c);
     d_weight := if Qeq_bool total 0 then 0 else Qabs (c_amount c) / total |}.

(** Modelled from the spec: what the assembler hands back, the drivers in
    descending weight and whether the set was cut. *)
Record Explanation := {
  drivers : list Driver;
  non_exhaustive : bool
}.

(** Modelled from the spec: the assembler ranks the contributions, keeps
    the top K and normalizes; when contributions were cut off the caller is
    told the set is not exhaustive. *)
Definition assemble (K : nat) (cs : list Contribution) : Explanation :=
  {| drivers := map (to_driver (total_contribution cs)) (firstn K (rank cs));
     non_exhaustive := (K <? List.length cs)%nat |}.


(** *** The weights as binary64 numbers *)

(** Modelled from the spec: the response carries each weight as a float
    (section 6, weight: 0-1 float).  These are the weights of [assemble]
    computed in binary64 from the amounts of the contributions: the same
    ranking, the same cut at K, the same division by the total. *)
Fixpoint insert_ranked64 (c : float) (l : list float) : list float :=
  match l with
  | [] => [c]
  | d :: rest =>
      if PrimFloat.leb (PrimFloat.abs d) (PrimFloat.abs c) then c :: d :: rest
      else d :: insert_ranked64 c rest
  end.

Definition total64 (amounts : list float) : float :=
  fold_right (fun c acc => PrimFloat.add (PrimFloat.abs c) acc) 0%float amounts.

Definition weights64 (K : nat) (amounts : list float) : list float :=
  map (fun c => PrimFloat.div (PrimFloat.abs c) (total64 amounts))
      (firstn K (fold_right insert_ranked64 [] amounts)).


(** The rational number a finite binary64 value stands for. *)
Definition exact_value (x : float) : Q :=
  match Prim2SF x with
  | S754_finite sign m e =>
      (if sign then -1 else 1) * inject_Z (Z.pos m) * Qpower 2 e
  | _ => 0
  end.


(** *** Sample configuration *)

(** Values to run examples on; the specification fixes none of them. *)
Definition sample_ingest_config : IngestConfig :=
  {| physical_range := fun _ => (0, 1000000); max_future_lag := 1 |}.

Definition sample_reading (v : Q) : RawRecord :=
  {| raw_source := weather; raw_timestamp := 10;
     raw_metric := Some "temperature_f"; raw_value := Some v;
     raw_unit := Some "F" |}.

Definition sample_signal (v : Q) : Signal :=
  {| sig_source := weather; sig_timestamp := 10;
     sig_metric := "temperature_f"; sig_value := v; sig_unit := "F" |}.



(** Five contributions whose shares are 3/13 and 2/13. *)
Definition uneven_contributions : list Contribution :=
  map (fun a => {| c_source := events; c_factor := "event"; c_amount := a |})
      [3; 3; 3; 2; 2].

Definition uneven_amounts64 : list float := [3; 3; 3; 2; 2]%float.


End Engine.

(* ================================================================== *)
(** ** Properties of the client                                         *)
(* ================================================================== *)

Module ClientProofs.
Import Client.

(** *** The query string of the request *)

Lemma occurs_app (sep : ascii) (a b : string) :
  occurs sep (a ++ b) = occurs sep a || occurs sep b.
Proof.
  induction a as [|c a IH]; simpl; [reflexivity|].
  rewrite IH. now rewrite orb_assoc.
Qed.

(** Whatever the byte, its encoding holds no '&'. *)
Lemma encoded_char_has_no_amp (c : ascii) :
  occurs "&" (if unreserved c then String c "" else percent_encode c) = false.
Proof.
  destruct c as [[] [] [] [] [] [] [] []]; vm_compute; reflexivity.
Qed.

Lemma encodeURIComponent_has_no_amp (s : string) :
  occurs "&" (encodeURIComponent s) = false.
Proof.
  induction s as [|c s IH]; simpl; [reflexivity|].
  rewrite occurs_app, IH, encoded_char_has_no_amp. reflexivity.
Qed.

Lemma string_app_assoc (a b c : string) : (a ++ b) ++ c = a ++ (b ++ c).
Proof. induction a; simpl; congruence. Qed.

Lemma string_app_empty (a : string) : a ++ "" = a.
Proof. induction a; simpl; congruence. Qed.

(** Splitting runs through a piece that holds no separator. *)
Lemma split_on_through (sep : ascii) (s t cur : string) :
  occurs sep s = false ->
  split_on sep (s ++ String sep t) cur = (cur ++ s) :: split_on sep t "".
Proof.
  revert cur. induction s as [|c s IH]; intros cur Hs; simpl in *.
  - rewrite Ascii.eqb_refl. now rewrite string_app_empty.
  - apply orb_false_iff in Hs as [Hc Hs]. rewrite Hc.
    rewrite IH by assumption. now rewrite string_app_assoc.
Qed.

(** Whatever the location, the request carries exactly two parameters. *)
Lemma query_of_outlook_path (loc : string) :
  query_of (outlook_path loc)
  = [("location", encodeURIComponent loc); ("days", "30")].
Proof.
  unfold query_of, outlook_path. cbn.
  rewrite (split_on_through "&" (encodeURIComponent loc) "days=30")
    by apply encodeURIComponent_has_no_amp.
  reflexivity.
Qed.

(** The unfolding of one run of the effect. *)
Ltac run_effect :=
  unfold mounted, mount, loadTouristOutlook, try_catch_finally, bind, fetch,
    setLoading, setError, setOutlook, getLocation, modify, the_url in *;
  cbn in *.

(** C7: a run of [loadTouristOutlook] from the initial state issues
    exactly one request, to /touristpulse/outlook with
    location=Santa%20Cruz and days=30; and for any location the path it
    builds carries the encoded location and a [days] parameter that reads
    as the integer 30, which is between 1 and 90. *)
Theorem outlook_request_days_within_limit :
  forall (R : Runtime) (env : option string) (net : string -> FetchOutcome),
    fetched (fst (mount env net))
    = [backendUrl env ++ "/touristpulse/outlook?location=Santa%20Cruz&days=30"]
    /\ (forall loc : string,
          lookup "location" (query_of (outlook_path loc))
          = Some (encodeURIComponent loc)
          /\ days_of (outlook_path loc) = Some 30%nat
          /\ (1 <= 30 <= 90)%nat).
Proof.
  intros R env net. split.
  - run_effect.
    destruct (net _) as [e|r]; cbn; [reflexivity|].
    destruct (ok r); cbn; [|reflexivity].
    destruct (json r) as [e|[|data]]; cbn; reflexivity.
  - intros loc. unfold days_of. rewrite query_of_outlook_path. cbn.
    repeat split; lia.
Qed.

(** *** getLevelColor *)

(** C8: [getLevelColor] gives a style for every string: the four levels
    low, moderate, high and very_high get the labels LOW, NORMAL, HIGH and
    VERY HIGH with their colours, and every other string gets the gray
    UNKNOWN style. *)
Theorem getLevelColor_total :
  getLevelColor "low"
  = {| bg := "#fef3c7"; text := "#92400e"; border := "#f59e0b"; label := "LOW" |}
  /\ getLevelColor "moderate"
     = {| bg := "#bfdbfe"; text := "#1e40af"; border := "#3b82f6"; label := "NORMAL" |}
  /\ getLevelColor "high"
     = {| bg := "#bbf7d0"; text := "#166534"; border := "#22c55e"; label := "HIGH" |}
  /\ getLevelColor "very_high"
     = {| bg := "#d8b4fe"; text := "#6b21a8"; border := "#a855f7"; label := "VERY HIGH" |}
  /\ forall level : string,
       ~ In level ["low"; "moderate"; "high"; "very_high"] ->
       getLevelColor level = gray.
Proof.
  repeat split; try reflexivity.
  intros level Hn. unfold getLevelColor.
  destruct (String.eqb_spec level "very_high") as [->|_].
  { exfalso. apply Hn. simpl. tauto. }
  destruct (String.eqb_spec level "high") as [->|_].
  { exfalso. apply Hn. simpl. tauto. }
  destruct (String.eqb_spec level "moderate") as [->|_].
  { exfalso. apply Hn. simpl. tauto. }
  destruct (String.eqb_spec level "low") as [->|_].
  { exfalso. apply Hn. simpl. tauto. }
  reflexivity.
Qed.

Lemma getLevelColor_total_witness :
  ~ In "extreme" ["low"; "moderate"; "high"; "very_high"]
  /\ getLevelColor "extreme" = gray.
Proof.
  assert (Hn : ~ In "extreme" ["low"; "moderate"; "high"; "very_high"]).
  { simpl. intros [H|[H|[H|[H|H]]]]; try discriminate H; exact H. }
  split; [exact Hn|].
  exact (proj2 (proj2 (proj2 (proj2 getLevelColor_total))) "extreme" Hn).
Defined.

(** *** What is rendered from a reply *)

(** C9: two replies with the same status, the same location and the same
    non-empty outlook list are rendered alike whatever their generated_at
    fields are; for a successful reply the text after "Generated at: " is
    the localized date of the first outlook entry. *)
Theorem generated_at_not_rendered :
  forall (R : Runtime) (env : option string) (net1 net2 : string -> FetchOutcome)
         (good : bool) (code : nat) (r1 r2 : TouristPulseResponse)
         (first : TouristPulseOutlook) (others : list TouristPulseOutlook),
    net1 (the_url env) = replied good code r1 ->
    net2 (the_url env) = replied good code r2 ->
    location r1 = location r2 ->
    outlook r1 = Value (first :: others) ->
    outlook r2 = Value (first :: others) ->
    TouristPulse (mounted env net1) = TouristPulse (mounted env net2)
    /\ (good = true ->
        TouristPulse (mounted env net1)
        = Elem "div" []
            [Elem "h2" [("marginBottom", "1rem")]
               [Text "30-Day Tourism Forecast for "; Text "Santa Cruz"];
             Elem "div" [("marginBottom", "1rem"); ("fontSize", "0.9rem");
                         ("color", "#666")]
               [Text "Generated at: "; Text (Date_toLocaleString (date first))];
             Elem "div" [("display", "grid"); ("gap", "1rem")]
               (map day_node (first :: others));
             Nothing]).
Proof.
  intros R env net1 net2 good code r1 r2 first others H1 H2 _ O1 O2.
  run_effect. rewrite H1, H2. unfold replied. cbn.
  destruct good; cbn.
  - rewrite O1, O2. cbn. split; [reflexivity|]. intros _. reflexivity.
  - split; [reflexivity|]. intros H; discriminate H.
Qed.

Lemma generated_at_not_rendered_witness :
  let net1 := fun _ : string => replied true 200 (sample_response "2026-01-16T08:00:00") in
  let net2 := fun _ : string => replied true 200 (sample_response "1999-12-31T23:59:59") in
  @TouristPulse sample_runtime (@mounted sample_runtime None net1)
  = @TouristPulse sample_runtime (@mounted sample_runtime None net2).
Proof.
  intros net1 net2.
  exact (proj1 (generated_at_not_rendered sample_runtime None net1 net2 true 200
                  (sample_response "2026-01-16T08:00:00")
                  (sample_response "1999-12-31T23:59:59")
                  sample_day [] eq_refl eq_refl eq_refl eq_refl eq_refl)).
Defined.

(** C10: whatever state the component is in, when an ok reply parses to an
    object whose outlook field is missing or null, the run completes
    without throwing, the empty list replaces the stored outlook, the error
    is cleared, and the component renders the forecast frame with
    "Generated at: N/A", no day and the notice "No outlook data available".
    When the body parses to null itself, reading its outlook throws; the
    run still completes, but it records the error and keeps the outlook it
    had. *)
Theorem missing_outlook_renders_no_data :
  forall (R : Runtime) (env : option string) (net : string -> FetchOutcome)
         (w : World) (code : nat),
    let url := request_url env (st_location (cells w)) in
    let after := loadTouristOutlook env net w in
    (forall r : TouristPulseResponse,
        net url = replied true code r ->
        outlook r = Missing \/ outlook r = Null ->
        snd after = Normal tt
        /\ cells (fst after)
           = {| st_outlook := []; st_loading := false; st_error := None;
                st_location := st_location (cells w) |}
        /\ TouristPulse (cells (fst after))
           = Elem "div" []
               [Elem "h2" [("marginBottom", "1rem")]
                  [Text "30-Day Tourism Forecast for ";
                   Text (st_location (cells w))];
                Elem "div" [("marginBottom", "1rem"); ("fontSize", "0.9rem");
                            ("color", "#666")]
                  [Text "Generated at: "; Text "N/A"];
                Elem "div" [("display", "grid"); ("gap", "1rem")] [];
                Elem "div" [("textAlign", "center"); ("padding", "2rem");
                            ("color", "#666")]
                  [Text "No outlook data available"]])
    /\ (net url = FetchResolves {| ok := true; status := code;
                                   json := JsonResolves ParsedNull |} ->
        snd after = Normal tt
        /\ cells (fst after)
           = {| st_outlook := st_outlook (cells w); st_loading := false;
                st_error := Some null_property_message;
                st_location := st_location (cells w) |}).
Proof.
  intros R env net w code url after. subst url after. split.
  - intros r Hnet Hout. run_effect. rewrite Hnet. unfold replied. cbn.
    destruct Hout as [-> | ->]; cbn; repeat split; reflexivity.
  - intros Hnet. run_effect. rewrite Hnet. cbn. split; reflexivity.
Qed.

(** A state left by an earlier load: a day is stored and an error shown. *)
Lemma missing_outlook_renders_no_data_witness :
  let stale := {| cells := {| st_outlook := [sample_day]; st_loading := false;
                             st_error := Some "Backend API error: 503";
                             st_location := "Santa Cruz" |};
                  fetched := [] |} in
  cells (fst (@loadTouristOutlook sample_runtime None
                (fun _ => replied true 200 sample_empty_response) stale))
  = {| st_outlook := []; st_loading := false; st_error := None;
       st_location := "Santa Cruz" |}.
Proof.
  intros stale.
  exact (proj1 (proj2 (proj1 (missing_outlook_renders_no_data sample_runtime None
                                (fun _ => replied true 200 sample_empty_response)
                                stale 200)
                         sample_empty_response eq_refl (or_intror eq_refl)))).
Defined.

(** An ok reply whose body is the JSON value null has no outlook field,
    yet the component does not show the no-data state: it records the
    TypeError and renders the error view. *)
Lemma null_body_enters_error_state :
  let net := fun _ : string =>
    FetchResolves {| ok := true; status := 200;
                     json := JsonResolves ParsedNull |} in
  ~ (st_error (@mounted sample_runtime None net) = None
     /\ @TouristPulse sample_runtime (@mounted sample_runtime None net)
        = @forecast_view sample_runtime "Santa Cruz" [])
  /\ @TouristPulse sample_runtime (@mounted sample_runtime None net)
     = error_view "Cannot read properties of null (reading 'outlook')".
Proof.
  intros net. split.
  - intros [H _]. vm_compute in H. discriminate H.
  - vm_compute. reflexivity.
Qed.

End ClientProofs.

(* ================================================================== *)
(** ** Properties of the engine                                         *)
(* ================================================================== *)

Module EngineProofs.
Import Engine.
Open Scope Q_scope.

(** *** Keys *)

#[local] Arguments key_eqb : simpl never.
#[local] Arguments key_of : simpl never.

Lemma source_eqb_eq (a b : Source) : source_eqb a b = true <-> a = b.
Proof. destruct a, b; simpl; split; intros H; congruence. Qed.

Lemma key_eqb_eq (a b : Key) : key_eqb a b = true <-> a = b.
Proof.
  destruct a as [[s1 m1] t1], b as [[s2 m2] t2]. unfold key_eqb.
  rewrite !andb_true_iff, source_eqb_eq, String.eqb_eq, Z.eqb_eq.
  split.
  - intros [[-> ->] ->]. reflexivity.
  - intros H. inversion H. auto.
Qed.

Lemma key_eqb_refl (k : Key) : key_eqb k k = true.
Proof. now apply key_eqb_eq. Qed.

Lemma key_eqb_neq (a b : Key) : key_eqb a b = false <-> a <> b.
Proof.
  rewrite <- key_eqb_eq. destruct (key_eqb a b); split; congruence.
Qed.

(** *** The store under [put] *)

Lemma keys_of_put (s : Signal) (store : Store) (k : Key) :
  In k (map key_of (put s store)) -> k = key_of s \/ In k (map key_of store).
Proof.
  induction store as [|x rest IH]; simpl.
  - intros [H|H]; [now left | destruct H].
  - destruct (key_eqb (key_of x) (key_of s)) eqn:E; simpl.
    + intros [H|H]; [now left | now right; right].
    + intros [H|H]; [now right; left |].
      destruct (IH H); [now left | now right; right].
Qed.

Lemma put_unique (s : Signal) (store : Store) :
  unique_keys store -> unique_keys (put s store).
Proof.
  unfold unique_keys. induction store as [|x rest IH]; simpl; intros Hu.
  - constructor; [intros [] | constructor].
  - inversion Hu as [|? ? Hx Hrest]; subst.
    destruct (key_eqb (key_of x) (key_of s)) eqn:E; simpl.
    + apply key_eqb_eq in E. rewrite <- E. now constructor.
    + constructor; [|now apply IH].
      intros Hin. apply keys_of_put in Hin as [H|H]; [|contradiction].
      apply key_eqb_neq in E. congruence.
Qed.

Lemma ingest_unique (cfg : IngestConfig) (now : Z) (batch : list RawRecord)
    (store : Store) :
  unique_keys store -> unique_keys (fst (ingest cfg now batch store)).
Proof.
  revert store. induction batch as [|r rest IH]; intros store Hu; simpl.
  - exact Hu.
  - destruct (validate cfg now r) as [s|e].
    + apply IH. now apply put_unique.
    + specialize (IH store Hu).
      destruct (ingest cfg now rest store) as [store' rejected]. exact IH.
Qed.

Lemma retrievable_absent (k : Key) (store : Store) :
  ~ In k (map key_of store) -> retrievable k store = [].
Proof.
  unfold retrievable. induction store as [|x rest IH]; simpl; intros Hn.
  - reflexivity.
  - destruct (key_eqb (key_of x) k) eqn:E.
    + apply key_eqb_eq in E. exfalso. apply Hn. now left.
    + apply IH. intros H. apply Hn. now right.
Qed.

Lemma retrievable_put (s : Signal) (store : Store) :
  unique_keys store ->
  retrievable (key_of s) (put s store) = [sig_value s].
Proof.
  unfold unique_keys. induction store as [|x rest IH]; simpl; intros Hu.
  - unfold retrievable. simpl. now rewrite key_eqb_refl.
  - inversion Hu as [|? ? Hx Hrest]; subst.
    destruct (key_eqb (key_of x) (key_of s)) eqn:E.
    + apply key_eqb_eq in E.
      change (retrievable (key_of s) (s :: rest))
        with (map sig_value (filter (fun y => key_eqb (key_of y) (key_of s)) (s :: rest))).
      simpl. rewrite key_eqb_refl. simpl. f_equal.
      apply (retrievable_absent (key_of s) rest). now rewrite <- E.
    + change (retrievable (key_of s) (x :: put s rest))
        with (map sig_value (filter (fun y => key_eqb (key_of y) (key_of s)) (x :: put s rest))).
      simpl. rewrite E. now apply IH.
Qed.

Lemma get_put (s : Signal) (store : Store) :
  get (key_of s) (put s store) = Some (sig_value s).
Proof.
  unfold get. induction store as [|x rest IH]; simpl.
  - now rewrite key_eqb_refl.
  - destruct (key_eqb (key_of x) (key_of s)) eqn:E; simpl.
    + now rewrite key_eqb_refl.
    + now rewrite E.
Qed.

Lemma put_keeps_key (s : Signal) (store : Store) :
  In (key_of s) (map key_of (put s store)).
Proof.
  induction store as [|x rest IH]; simpl.
  - now left.
  - destruct (key_eqb (key_of x) (key_of s)); simpl; [now left | now right].
Qed.

Lemma put_known_length (s : Signal) (store : Store) :
  In (key_of s) (map key_of store) ->
  List.length (put s store) = List.length store.
Proof.
  induction store as [|x rest IH]; simpl.
  - intros [].
  - intros [H|H]; destruct (key_eqb (key_of x) (key_of s)) eqn:E; simpl;
      try reflexivity.
    + apply key_eqb_neq in E. congruence.
    + f_equal. now apply IH.
Qed.

(** C5: two valid records with the same (source, metric, timestamp) are
    ingested one after the other, on top of whatever was ingested before.
    Afterwards the store answers that triple with the second value, the
    second value is the only one it holds for the triple, neither record
    was rejected, and the second record did not make the store longer. *)
Theorem ingestion_last_write_wins :
  forall (cfg0 cfg : IngestConfig) (now0 now : Z) (earlier : list RawRecord)
         (r1 r2 : RawRecord) (s1 s2 : Signal),
    validate cfg now r1 = inl s1 ->
    validate cfg now r2 = inl s2 ->
    key_of s1 = key_of s2 ->
    let store0 := fst (ingest cfg0 now0 earlier []) in
    let store2 := fst (ingest cfg now [r1; r2] store0) in
    get (key_of s2) store2 = Some (sig_value s2)
    /\ retrievable (key_of s2) store2 = [sig_value s2]
    /\ snd (ingest cfg now [r1; r2] store0) = []
    /\ List.length store2 = List.length (fst (ingest cfg now [r1] store0)).
Proof.
  intros cfg0 cfg now0 now earlier r1 r2 s1 s2 V1 V2 K store0 store2.
  assert (U0 : unique_keys store0).
  { apply ingest_unique. constructor. }
  subst store2. simpl. rewrite V1, V2. simpl.
  repeat split.
  - apply get_put.
  - apply retrievable_put. now apply put_unique.
  - apply put_known_length. rewrite <- K. apply put_keeps_key.
Qed.

(** *** Driver weights *)

#[local] Arguments Qplus : simpl never.
#[local] Arguments Qmult : simpl never.
#[local] Arguments Qdiv : simpl never.
#[local] Arguments Qabs : simpl never.
#[local] Arguments Qle_bool : simpl never.
#[local] Arguments Qeq_bool : simpl never.











(** *** Bands *)











(** *** One boundary *)












Lemma ingestion_last_write_wins_witness :
  let store2 :=
    fst (ingest sample_ingest_config 10 [sample_reading 61; sample_reading 64]
           (fst (ingest sample_ingest_config 9 [] []))) in
  get (weather, "temperature_f", 10%Z) store2 = Some 64
  /\ retrievable (weather, "temperature_f", 10%Z) store2 = [64].
Proof.
  pose proof (ingestion_last_write_wins sample_ingest_config sample_ingest_config
                9 10 [] (sample_reading 61) (sample_reading 64)
                (sample_signal 61) (sample_signal 64)
                eq_refl eq_refl eq_refl) as H.
  split; [exact (proj1 H) | exact (proj1 (proj2 H))].
Defined.


(** On the sample the binary64 weights are the exact ratios of [assemble]
    rounded: each is within 2^-55 of its ratio. *)
Example binary64_weights_round_the_ratios :
  forallb (fun p => Qle_bool (Qabs (exact_value (fst p) - snd p)) (Qpower 2 (-55)))
    (combine (weights64 5 uneven_amounts64)
             (map d_weight (drivers (assemble 5 uneven_contributions))))
  = true.
Proof. vm_compute. reflexivity. Qed.



End EngineProofs.

(* ================================================================== *)
(** ** Further properties of the client                                 *)
(* ================================================================== *)

Module ClientExtras.
Import Client.
Import ClientProofs.

(** *** Every outcome of the effect *)

Ltac run_from :=
  unfold loadTouristOutlook, try_catch_finally, bind, fetch,
    setLoading, setError, setOutlook, getLocation, modify, read_outlook,
    await_json, throw, ret in *;
  cbn in *.

(** X1: whatever the starting state, the environment and the answer of the
    network, a run of [loadTouristOutlook] completes without throwing,
    leaves [loading] false and the location as it was, and has issued
    exactly one more request, to the URL built from the location. *)
Theorem effect_always_settles :
  forall (R : Runtime) (env : option string) (net : string -> FetchOutcome)
         (w : World),
    let after := loadTouristOutlook env net w in
    snd after = Normal tt
    /\ st_loading (cells (fst after)) = false
    /\ st_location (cells (fst after)) = st_location (cells w)
    /\ fetched (fst after)
       = request_url env (st_location (cells w)) :: fetched w.
Proof.
  intros R env net w. run_from.
  destruct (net _) as [e|r]; cbn; [repeat split|].
  destruct (ok r); cbn; [|repeat split].
  destruct (json r) as [e|[|data]]; cbn; repeat split.
Qed.

Lemma string_of_nat_inj (n m : nat) :
  string_of_nat n = string_of_nat m -> n = m.
Proof.
  unfold string_of_nat. intros H.
  apply (f_equal NilEmpty.uint_of_string) in H.
  rewrite !NilEmpty.usu in H. inversion H as [H'].
  apply (f_equal Nat.of_uint) in H'.
  now rewrite !Unsigned.of_to in H'.
Qed.

Lemma string_app_inv_head (p a b : string) : p ++ a = p ++ b -> a = b.
Proof. induction p as [|c p IH]; simpl; intros H; [exact H|]. inversion H. auto. Qed.

(** X2: when the reply is not ok, the run records the error
    "Backend API error: <status>", keeps the outlook it had and does not
    look at the body; the component then renders the error view with that
    message, and different statuses give different messages. *)
Theorem http_failure_is_reported :
  forall (R : Runtime) (env : option string) (net : string -> FetchOutcome)
         (w : World) (code : nat) (body : JsonOutcome),
    net (request_url env (st_location (cells w)))
    = FetchResolves {| ok := false; status := code; json := body |} ->
    let after := cells (fst (loadTouristOutlook env net w)) in
    after = {| st_outlook := st_outlook (cells w); st_loading := false;
               st_error := Some ("Backend API error: " ++ string_of_nat code);
               st_location := st_location (cells w) |}
    /\ TouristPulse after
       = error_view ("Backend API error: " ++ string_of_nat code)
    /\ forall code' : nat,
         "Backend API error: " ++ string_of_nat code
         = "Backend API error: " ++ string_of_nat code' -> code = code'.
Proof.
  intros R env net w code body Hnet. run_from. rewrite Hnet. cbn.
  repeat split.
  intros code' H. apply string_of_nat_inj.
  apply (string_app_inv_head "Backend API error: "). exact H.
Qed.

(** X3: a value thrown by the fetch, by the JSON parsing or by reading a
    null body is caught: the run records the message of an Error, or
    "Failed to load tourist outlook" for any other thrown value, keeps the
    outlook it had and ends with [loading] false. *)
Theorem thrown_values_are_caught :
  forall (R : Runtime) (env : option string) (net : string -> FetchOutcome)
         (w : World) (e : Thrown),
    let url := request_url env (st_location (cells w)) in
    net url = FetchRejects e
    \/ (exists code, net url = FetchResolves
           {| ok := true; status := code; json := JsonRejects e |})
    \/ (e = ErrorObject null_property_message
        /\ exists code, net url = FetchResolves
             {| ok := true; status := code; json := JsonResolves ParsedNull |}) ->
    cells (fst (loadTouristOutlook env net w))
    = {| st_outlook := st_outlook (cells w); st_loading := false;
         st_error := Some (caught_message e);
         st_location := st_location (cells w) |}.
Proof.
  intros R env net w e url [H | [[code H] | [-> [code H]]]];
    subst url; run_from; rewrite H; cbn; try destruct e; reflexivity.
Qed.

(** X4: an ok reply whose body parses to an object replaces the outlook by
    the reply's list (the empty list when the field is missing or null) and
    clears the error, whatever outlook and error the component had; the
    reply's location and generated_at fields play no part. *)
Theorem successful_load_replaces_state :
  forall (R : Runtime) (env : option string) (net : string -> FetchOutcome)
         (w : World) (code : nat) (r : TouristPulseResponse),
    net (request_url env (st_location (cells w))) = replied true code r ->
    cells (fst (loadTouristOutlook env net w))
    = {| st_outlook := or_default (outlook r) []; st_loading := false;
         st_error := None; st_location := st_location (cells w) |}.
Proof.
  intros R env net w code r H. run_from. rewrite H. unfold replied. cbn.
  reflexivity.
Qed.

(** X5: against the same environment and network, running the effect a
    second time leaves the component state exactly as the first run left
    it; the only difference is that a second request has been issued. *)
Theorem reload_is_idempotent :
  forall (R : Runtime) (env : option string) (net : string -> FetchOutcome)
         (w : World),
    let once := fst (loadTouristOutlook env net w) in
    let twice := fst (loadTouristOutlook env net once) in
    cells twice = cells once
    /\ fetched twice
       = request_url env (st_location (cells w)) ::
         request_url env (st_location (cells w)) :: fetched w.
Proof.
  intros R env net w. run_from.
  destruct (net (request_url env (st_location (cells w)))) as [e|r] eqn:E;
    cbn; rewrite ?E; cbn; [split; reflexivity|].
  destruct (ok r) eqn:Eo; cbn; rewrite ?E, ?Eo; cbn.
  - destruct (json r) as [e|[|data]] eqn:Ej; cbn; rewrite ?E; cbn;
      rewrite ?Eo; cbn; rewrite ?Ej; cbn; split; reflexivity.
  - rewrite ?Eo. cbn. split; reflexivity.
Qed.

(** X6: once loading is over, the component renders the error view exactly
    when the recorded error is a non-empty message; a failure whose message
    is the empty string is rendered as the forecast frame instead. *)
Theorem error_view_needs_a_message :
  forall (R : Runtime) (st : State),
    st_loading st = false ->
    ((exists e, TouristPulse st = error_view e)
     <-> (exists e, st_error st = Some e /\ e <> ""))
    /\ (st_error st = Some "" ->
        TouristPulse st = forecast_view (st_location st) (st_outlook st)).
Proof.
  intros R st Hl. unfold TouristPulse. rewrite Hl. split.
  - split.
    + intros [e He]. revert He. destruct (st_error st) as [m|].
      * unfold truthy_string. destruct (String.eqb_spec m "") as [Hm|Hm]; cbn.
        -- intros He. discriminate He.
        -- intros _. exists m. now split.
      * intros He. discriminate He.
    + intros [e [He Hn]]. rewrite He. exists e.
      unfold truthy_string. destruct (String.eqb_spec e ""); [contradiction|reflexivity].
  - intros He. rewrite He. reflexivity.
Qed.

(** *** The encoding of the location *)

Lemma all_chars_app (p : ascii -> bool) (a b : string) :
  all_chars p (a ++ b) = all_chars p a && all_chars p b.
Proof.
  induction a as [|c a IH]; simpl; [reflexivity|].
  rewrite IH. now rewrite andb_assoc.
Qed.

Lemma encode_char_safe (c : ascii) : all_chars url_safe (encode_char c) = true.
Proof.
  destruct c as [[] [] [] [] [] [] [] []]; vm_compute; reflexivity.
Qed.

Lemma all_chars_excludes (p : ascii -> bool) (s : string) (d : ascii) :
  all_chars p s = true -> p d = false -> occurs d s = false.
Proof.
  induction s as [|c s IH]; simpl; intros Hs Hd; [reflexivity|].
  apply andb_true_iff in Hs as [Hc Hs]. rewrite (IH Hs Hd), orb_false_r.
  destruct (Ascii.eqb_spec c d) as [->|_]; [congruence | reflexivity].
Qed.

(** X7: every character of an encoded location is an unreserved character
    or '%', so none of & = ? # / space + occurs in it. *)
Theorem encoded_location_is_url_safe :
  forall s : string,
    all_chars url_safe (encodeURIComponent s) = true
    /\ forall d : ascii,
         In d ["&"; "="; "?"; "#"; "/"; " "; "+"]%char ->
         occurs d (encodeURIComponent s) = false.
Proof.
  intros s.
  assert (Hsafe : all_chars url_safe (encodeURIComponent s) = true).
  { induction s as [|c s IH]; simpl; [reflexivity|].
    rewrite all_chars_app, IH, andb_true_r. apply encode_char_safe. }
  split; [exact Hsafe|].
  intros d Hd. apply (all_chars_excludes url_safe); [exact Hsafe|].
  simpl in Hd.
  repeat (destruct Hd as [<-|Hd]; [reflexivity|]). destruct Hd.
Qed.

(** A byte that is kept is not '%'; the two hex digits of an escaped byte
    read back as that byte. *)
Lemma encode_char_reads_back (c : ascii) :
  (if unreserved c then negb (Ascii.eqb c "%")
   else match hex_value (hex_digit (nat_of_ascii c / 16)),
              hex_value (hex_digit (nat_of_ascii c mod 16)) with
        | Some a, Some b => Ascii.eqb (ascii_of_nat (16 * a + b)) c
        | _, _ => false
        end) = true.
Proof.
  destruct c as [[] [] [] [] [] [] [] []]; vm_compute; reflexivity.
Qed.

Lemma decode_encode_char (c : ascii) (t : string) :
  decodeURIComponent (encode_char c ++ t)
  = option_map (String c) (decodeURIComponent t).
Proof.
  pose proof (encode_char_reads_back c) as H.
  unfold encode_char, percent_encode.
  destruct (unreserved c).
  - apply negb_true_iff in H.
    change (decodeURIComponent (String c "" ++ t))
      with (if Ascii.eqb c "%" then
              match t with
              | String h (String l rest') =>
                  match hex_value h, hex_value l, decodeURIComponent rest' with
                  | Some a, Some b, Some r =>
                      Some (String (ascii_of_nat (16 * a + b)) r)
                  | _, _, _ => None
                  end
              | _ => None
              end
            else option_map (String c) (decodeURIComponent t)).
    now rewrite H.
  - set (h := hex_digit (nat_of_ascii c / 16)) in *.
    set (l := hex_digit (nat_of_ascii c mod 16)) in *.
    change (decodeURIComponent (String "%" (String h (String l "")) ++ t))
      with (match hex_value h, hex_value l, decodeURIComponent t with
            | Some a, Some b, Some r =>
                Some (String (ascii_of_nat (16 * a + b)) r)
            | _, _, _ => None
            end).
    destruct (hex_value h) as [a|]; [|discriminate H].
    destruct (hex_value l) as [b|]; [|discriminate H].
    apply Ascii.eqb_eq in H. rewrite H.
    destruct (decodeURIComponent t); reflexivity.
Qed.

Lemma decode_encode (s : string) :
  decodeURIComponent (encodeURIComponent s) = Some s.
Proof.
  induction s as [|c s IH]; [reflexivity|].
  change (encodeURIComponent (String c s))
    with (encode_char c ++ encodeURIComponent s).
  now rewrite decode_encode_char, IH.
Qed.

(** X8: the location parameter read from the request path and
    percent-decoded gives back the location, for every location; hence
    requests for different locations have different URLs. *)
Theorem location_survives_the_request :
  forall (env : option string) (loc : string),
    location_of (outlook_path loc) = Some loc
    /\ forall other : string,
         loc <> other -> request_url env loc <> request_url env other.
Proof.
  intros env loc.
  assert (Hback : forall l, location_of (outlook_path l) = Some l).
  { intros l. unfold location_of. rewrite query_of_outlook_path. cbn.
    apply decode_encode. }
  split; [apply Hback|].
  intros other Hneq H. apply Hneq.
  unfold request_url in H. apply string_app_inv_head in H.
  apply (f_equal location_of) in H. rewrite !Hback in H. now inversion H.
Qed.

Lemma string_length_app (a b : string) :
  String.length (a ++ b) = (String.length a + String.length b)%nat.
Proof. induction a as [|c a IH]; simpl; [reflexivity | now rewrite IH]. Qed.

(** X9: counting the location in UTF-8 bytes (a string is its byte
    sequence here), the encoded location has at least as many characters as
    the location has bytes and at most three times as many; a location made
    of unreserved characters only is sent unchanged. *)
Theorem encoded_length_bounds :
  forall s : string,
    (String.length s <= String.length (encodeURIComponent s)
     <= 3 * String.length s)%nat
    /\ (all_chars unreserved s = true -> encodeURIComponent s = s).
Proof.
  intros s. split.
  - induction s as [|c s IH]; simpl; [lia|].
    rewrite string_length_app. destruct (unreserved c); simpl; lia.
  - induction s as [|c s IH]; simpl; intros H; [reflexivity|].
    apply andb_true_iff in H as [Hc Hs]. rewrite Hc, (IH Hs). reflexivity.
Qed.

(** *** Styles of the rendered page *)

Lemma fixed_styles_app (a b : list (string * string)) :
  fixed_styles (a ++ b) = fixed_styles a && fixed_styles b.
Proof. apply forallb_app. Qed.

Lemma getLevelColor_in_palette (level : string) :
  In (getLevelColor level) palette.
Proof.
  unfold getLevelColor, palette.
  destruct (String.eqb_spec level "very_high") as [->|_]; [simpl; tauto|].
  destruct (String.eqb_spec level "high") as [->|_]; [simpl; tauto|].
  destruct (String.eqb_spec level "moderate") as [->|_]; [simpl; tauto|].
  destruct (String.eqb_spec level "low") as [->|_]; [simpl; tauto|].
  simpl. tauto.
Qed.

Lemma driver_items_unstyled `{Runtime} (ds : list DemandSignal) :
  flat_map styles_of (map driver_node ds) = [].
Proof. induction ds as [|d ds IH]; simpl; [reflexivity | exact IH]. Qed.

Lemma day_styles_fixed `{Runtime} (day : TouristPulseOutlook) :
  fixed_styles (styles_of (day_node day)) = true.
Proof.
  destruct day as [d level c ds sm]. unfold day_node. cbn [demand_level date
    confidence drivers summary].
  pose proof (getLevelColor_in_palette level) as Hin.
  remember (getLevelColor level) as colors eqn:Hc. clear Hc.
  assert (Hds : fixed_styles (styles_of (drivers_node colors ds)) = true).
  { unfold drivers_node. destruct ds as [| |l]; try reflexivity.
    destruct l as [|x l]; [reflexivity|].
    cbn [Nat.ltb Nat.leb List.length styles_of flat_map app].
    rewrite (driver_items_unstyled (x :: l)).
    unfold palette in Hin. simpl in Hin.
    repeat (destruct Hin as [<-|Hin]; [vm_compute; reflexivity|]).
    destruct Hin. }
  assert (Hc : fixed_styles (styles_of (confidence_node c)) = true).
  { unfold confidence_node. destruct c as [| |x]; try reflexivity.
    destruct (truthy_number x); reflexivity. }
  assert (Hs : fixed_styles (styles_of (summary_node sm)) = true).
  { unfold summary_node. destruct sm as [| |x]; try reflexivity.
    destruct (truthy_string x); reflexivity. }
  cbn [styles_of flat_map].
  rewrite !fixed_styles_app, ?app_nil_r, Hds, Hc, Hs.
  unfold palette in Hin. simpl in Hin.
  repeat (destruct Hin as [<-|Hin]; [vm_compute; reflexivity|]).
  destruct Hin.
Qed.

Lemma cards_styles_fixed `{Runtime} (o : list TouristPulseOutlook) :
  fixed_styles (flat_map styles_of (map day_node o)) = true.
Proof.
  induction o as [|day o IH]; [reflexivity|].
  cbn [map flat_map]. now rewrite fixed_styles_app, day_styles_fixed, IH.
Qed.

(** X10: in every state of the component, every style value of the
    rendered page is one of the values written in the source (a literal, or
    built from a colour of the five level styles): no text of a reply
    reaches a style. *)
Theorem styles_come_from_the_source :
  forall (R : Runtime) (st : State),
    forallb (fun kv => is_fixed_style (snd kv)) (styles_of (Home st)) = true.
Proof.
  intros R st. change (fixed_styles (styles_of (Home st)) = true).
  assert (Hf : forall loc o, fixed_styles (styles_of (forecast_view loc o)) = true).
  { intros loc o. unfold forecast_view. cbn [styles_of flat_map].
    rewrite !fixed_styles_app, cards_styles_fixed.
    destruct o; reflexivity. }
  unfold Home. cbn [styles_of flat_map]. rewrite !fixed_styles_app, ?app_nil_r.
  assert (Hc : fixed_styles (styles_of (TouristPulse st)) = true).
  { unfold TouristPulse. destruct (st_loading st); [reflexivity|].
    destruct (st_error st) as [e|]; [|apply Hf].
    destruct (truthy_string e); [reflexivity | apply Hf]. }
  rewrite Hc. reflexivity.
Qed.

(** *** A confidence of zero *)

(** X11: a confidence that equals zero or is NaN is rendered as that bare
    number, not as the percentage text; a missing or null confidence
    renders nothing; any other confidence renders the percentage span. *)
Theorem falsy_confidence_is_shown_as_a_number :
  forall (R : Runtime) (x : number),
    (PrimFloat.eqb x 0%float = true \/ PrimFloat.eqb x x = false ->
     confidence_node (Value x) = Num x)
    /\ (PrimFloat.eqb x 0%float = false -> PrimFloat.eqb x x = true ->
        confidence_node (Value x)
        = Elem "span" [("fontSize", "0.85rem"); ("opacity", "0.8")]
            [Text " "; Text "("; Num (Math_round (PrimFloat.mul x 100%float));
             Text "% confidence)"])
    /\ confidence_node Missing = Nothing
    /\ confidence_node Null = Nothing.
Proof.
  intros R x. unfold confidence_node, truthy_number. repeat split.
  - intros [H|H]; rewrite H; [reflexivity|]. now rewrite andb_false_r.
  - intros H1 H2. now rewrite H1, H2.
Qed.

(** *** Instances *)

(** A summary sent by the backend is not a style value of the source. *)
Example reply_text_is_not_a_style :
  is_fixed_style "Busy weekend expected" = false
  /\ is_fixed_style "2px solid #22c55e" = true.
Proof. split; reflexivity. Qed.

Lemma http_failure_is_reported_witness :
  let net := fun _ : string =>
    FetchResolves {| ok := false; status := 503; json := JsonRejects OtherValue |} in
  @TouristPulse sample_runtime
    (cells (fst (@loadTouristOutlook sample_runtime None net
                   {| cells := initial_state; fetched := [] |})))
  = error_view "Backend API error: 503".
Proof.
  intros net.
  exact (proj1 (proj2 (http_failure_is_reported sample_runtime None net
                         {| cells := initial_state; fetched := [] |}
                         503 (JsonRejects OtherValue) eq_refl))).
Defined.

Lemma thrown_values_are_caught_witness :
  cells (fst (@loadTouristOutlook sample_runtime None
                (fun _ => FetchRejects OtherValue)
                {| cells := initial_state; fetched := [] |}))
  = {| st_outlook := []; st_loading := false;
       st_error := Some "Failed to load tourist outlook";
       st_location := "Santa Cruz" |}.
Proof.
  exact (thrown_values_are_caught sample_runtime None
           (fun _ => FetchRejects OtherValue)
           {| cells := initial_state; fetched := [] |} OtherValue
           (or_introl eq_refl)).
Defined.

Lemma successful_load_replaces_state_witness :
  let stale := {| cells := {| st_outlook := []; st_loading := false;
                             st_error := Some "Backend API error: 503";
                             st_location := "Santa Cruz" |};
                  fetched := [] |} in
  cells (fst (@loadTouristOutlook sample_runtime None
                (fun _ => replied true 200 (sample_response "2026-01-16T08:00:00"))
                stale))
  = {| st_outlook := [sample_day]; st_loading := false; st_error := None;
       st_location := "Santa Cruz" |}.
Proof.
  intros stale.
  exact (successful_load_replaces_state sample_runtime None
           (fun _ => replied true 200 (sample_response "2026-01-16T08:00:00"))
           stale 200 (sample_response "2026-01-16T08:00:00") eq_refl).
Defined.

Lemma error_view_needs_a_message_witness :
  let st := @mounted sample_runtime None (fun _ => FetchRejects (ErrorObject "")) in
  @TouristPulse sample_runtime st = @forecast_view sample_runtime "Santa Cruz" [].
Proof.
  intros st.
  exact (proj2 (error_view_needs_a_message sample_runtime st eq_refl) eq_refl).
Defined.

Lemma encoded_location_is_url_safe_witness :
  occurs "&" (encodeURIComponent "Tom & Jerry's?") = false.
Proof.
  apply (proj2 (encoded_location_is_url_safe "Tom & Jerry's?")).
  simpl. tauto.
Defined.

Lemma location_survives_the_request_witness :
  request_url None "Santa Cruz" <> request_url None "Capitola".
Proof.
  apply (proj2 (location_survives_the_request None "Santa Cruz")).
  discriminate.
Defined.

Lemma encoded_length_bounds_witness :
  encodeURIComponent "Capitola" = "Capitola".
Proof.
  apply (proj2 (encoded_length_bounds "Capitola")). reflexivity.
Defined.

Lemma falsy_confidence_is_shown_as_a_number_witness :
  @confidence_node sample_runtime (Value 0%float) = Num 0%float.
Proof.
  apply (proj1 (falsy_confidence_is_shown_as_a_number sample_runtime 0%float)).
  left. reflexivity.
Defined.

End ClientExtras.
